(** * Log-path resolution of [pesapal_service_fix.py]

    The script computes a log-file path from the process environment,
    creates its parent directory with [os.makedirs(..., exist_ok=True)] and
    falls back to a path under [/tmp] when that creation raises [OSError].

    The development embeds, in this order:
    - the string operations the script relies on ([str.startswith],
      [posixpath]/[ntpath] [join], [split], [dirname]);
    - a directory-tree model of the operating system ([mkdir], [exists],
      [isdir]) and CPython's [os.makedirs] on top of it;
    - the script itself, as a function from the environment and the initial
      directory tree to the final value of [log_path] (or the exception that
      escapes), the final directory tree and the list of [os.makedirs]
      calls performed.

    The library functions follow the sources of CPython 3.11
    ([posixpath.py], [ntpath.py], [os.py]). *)

From Stdlib Require Import String Ascii List Bool Arith Lia.
From stdpp Require Import base option gmap strings.
Import ListNotations.
Local Open Scope string_scope.

(** ** Python strings *)

Module PyStr.

(** The empty-string test [not s] / [if s]. *)
Definition is_empty (s : string) : bool :=
  match s with EmptyString => true | String _ _ => false end.

(** [s.startswith(pre)]. *)
Fixpoint startswith (s pre : string) {struct pre} : bool :=
  match pre, s with
  | EmptyString, _ => true
  | String _ _, EmptyString => false
  | String a pre', String b s' => if Ascii.eqb a b then startswith s' pre' else false
  end.

(** [s[:i]] for [i >= 0]. *)
Fixpoint take (i : nat) (s : string) : string :=
  match i, s with
  | S i', String c s' => String c (take i' s')
  | _, _ => EmptyString
  end.

(** [s[i:]] for [i >= 0]. *)
Fixpoint drop (i : nat) (s : string) : string :=
  match i, s with
  | S i', String _ s' => drop i' s'
  | _, _ => s
  end.

(** [s[i:j]] for [0 <= i <= j]. *)
Definition slice (i j : nat) (s : string) : string := take (j - i) (drop i s).

(** [s.find(c, start)] for a single character [c]: [None] stands for
    Python's [-1]. *)
Fixpoint find_from (isc : ascii -> bool) (start : nat) (s : string) : option nat :=
  match s with
  | EmptyString => None
  | String c s' =>
      match start with
      | S start' => option_map S (find_from isc start' s')
      | O => if isc c then Some 0 else option_map S (find_from isc 0 s')
      end
  end.

(** The pair [(s[:i], s[i:])] where [i] is the index just after the last
    character satisfying [isc], and [0] when there is none: this is
    [i = s.rfind(sep) + 1] of [posixpath] and the loop
    [while i and p[i-1] not in seps: i -= 1] of [ntpath]. *)
Fixpoint rsplit (isc : ascii -> bool) (s : string) : string * string :=
  match s with
  | EmptyString => (EmptyString, EmptyString)
  | String c s' =>
      let '(h, t) := rsplit isc s' in
      if is_empty h then
        if isc c then (String c EmptyString, t) else (EmptyString, String c t)
      else (String c h, t)
  end.

(** [s.rstrip(chars)]. *)
Fixpoint rstrip (isc : ascii -> bool) (s : string) : string :=
  match s with
  | EmptyString => EmptyString
  | String c s' =>
      let r := rstrip isc s' in
      if is_empty r && isc c then EmptyString else String c r
  end.

(** [s == c * len(s)]: every character of [s] satisfies [isc]. *)
Fixpoint all_chars (isc : ascii -> bool) (s : string) : bool :=
  match s with
  | EmptyString => true
  | String c s' => isc c && all_chars isc s'
  end.

(** The last character, [s[-1:]]. *)
Fixpoint last_char (s : string) : option ascii :=
  match s with
  | EmptyString => None
  | String c EmptyString => Some c
  | String _ s' => last_char s'
  end.

(** [s.endswith(c)] / [s[-1] in seps] for a class of characters. *)
Definition ends_in (isc : ascii -> bool) (s : string) : bool :=
  match last_char s with Some c => isc c | None => false end.

(** [s.replace(a, b)] for single characters. *)
Fixpoint replace_char (a b : ascii) (s : string) : string :=
  match s with
  | EmptyString => EmptyString
  | String c s' => String (if Ascii.eqb c a then b else c) (replace_char a b s')
  end.

(** [str.upper] and [str.lower] on the ASCII letters; other characters
    are left as they are. *)
Definition upper_char (c : ascii) : ascii :=
  let n := nat_of_ascii c in
  if Nat.leb 97 n && Nat.leb n 122 then ascii_of_nat (n - 32) else c.
Definition lower_char (c : ascii) : ascii :=
  let n := nat_of_ascii c in
  if Nat.leb 65 n && Nat.leb n 90 then ascii_of_nat (n + 32) else c.
Fixpoint map_chars (f : ascii -> ascii) (s : string) : string :=
  match s with
  | EmptyString => EmptyString
  | String c s' => String (f c) (map_chars f s')
  end.
Definition upper : string -> string := map_chars upper_char.
Definition lower : string -> string := map_chars lower_char.

End PyStr.

(** ** [os.path] for the two values of [os.name] the script distinguishes *)

Inductive os_name : Set := posix | nt.

Definition os_name_eqb (a b : os_name) : bool :=
  match a, b with posix, posix | nt, nt => true | _, _ => false end.

Module PosixPath.
Import PyStr.

Definition sep : string := "/".
Definition is_sep (c : ascii) : bool := Ascii.eqb c "/"%char.

(** [posixpath.join(a, *p)]. *)
Fixpoint join (a : string) (p : list string) : string :=
  match p with
  | [] => a
  | b :: p' =>
      let path :=
        if startswith b sep then b
        else if is_empty a || ends_in is_sep a then a +:+ b
        else a +:+ sep +:+ b in
      join path p'
  end.

(** [posixpath.split(p)]. *)
Definition split (p : string) : string * string :=
  let '(head, tail) := rsplit is_sep p in
  let head :=
    if negb (is_empty head) && negb (all_chars is_sep head)
    then rstrip is_sep head else head in
  (head, tail).

(** [posixpath.dirname(p)]. *)
Definition dirname (p : string) : string :=
  let head := fst (rsplit is_sep p) in
  if negb (is_empty head) && negb (all_chars is_sep head)
  then rstrip is_sep head else head.

End PosixPath.

Module NtPath.
Import PyStr.

Definition sep : string := "\".
Definition is_sep (c : ascii) : bool := Ascii.eqb c "\"%char.
(** Membership in [seps = '\\/']. *)
Definition is_seps (c : ascii) : bool :=
  Ascii.eqb c "\"%char || Ascii.eqb c "/"%char.

Definition unc_prefix : string := "\\?\UNC\".

(** [ntpath.splitdrive(p)]: the drive or UNC share, and the rest. *)
Definition splitdrive (p : string) : string * string :=
  if Nat.leb 2 (String.length p) then
    let normp := replace_char "/"%char "\"%char p in
    if String.eqb (slice 0 2 normp) (sep +:+ sep) then
      (* UNC drives, \\server\share, and device drives, \\.\device *)
      let start := if String.eqb (upper (take 8 normp)) unc_prefix then 8 else 2 in
      match find_from is_sep start normp with
      | None => (p, EmptyString)
      | Some index =>
          match find_from is_sep (index + 1) normp with
          | None => (p, EmptyString)
          | Some index2 => (take index2 p, drop index2 p)
          end
      end
    else if String.eqb (slice 1 2 normp) ":" then
      (* drive-letter drives, X: *)
      (take 2 p, drop 2 p)
    else (EmptyString, p)
  else (EmptyString, p).

(** [p_path and p_path[0] in seps]. *)
Definition starts_with_sep (p : string) : bool :=
  match p with String c _ => is_seps c | EmptyString => false end.

(** The loop body of [ntpath.join] for one more component [p], on the
    pair [(result_drive, result_path)]. *)
Definition join_step (acc : string * string) (p : string) : string * string :=
  let '(result_drive, result_path) := acc in
  let '(p_drive, p_path) := splitdrive p in
  let relative (result_drive : string) :=
    let result_path :=
      if negb (is_empty result_path) && negb (ends_in is_seps result_path)
      then result_path +:+ sep else result_path in
    (result_drive, result_path +:+ p_path) in
  if starts_with_sep p_path then
    (* the second path is absolute *)
    let result_drive :=
      if negb (is_empty p_drive) || is_empty result_drive
      then p_drive else result_drive in
    (result_drive, p_path)
  else if negb (is_empty p_drive) && negb (String.eqb p_drive result_drive) then
    if negb (String.eqb (lower p_drive) (lower result_drive)) then
      (* different drives: the first path is ignored *)
      (p_drive, p_path)
    else
      (* same drive in a different case *)
      relative p_drive
  else relative result_drive.

(** [ntpath.join(path, *paths)]. *)
Definition join (path : string) (paths : list string) : string :=
  let '(result_drive, result_path) := fold_left join_step paths (splitdrive path) in
  (* a separator between a UNC drive and a non-absolute path *)
  if negb (is_empty result_path) && negb (starts_with_sep result_path)
     && negb (is_empty result_drive)
     && negb (ends_in (fun c => Ascii.eqb c ":"%char) result_drive)
  then result_drive +:+ sep +:+ result_path
  else result_drive +:+ result_path.

(** [ntpath.split(p)]. *)
Definition split (p : string) : string * string :=
  let '(d, p) := splitdrive p in
  let '(head, tail) := rsplit is_seps p in
  (* head.rstrip(seps) or head *)
  let head := if is_empty (rstrip is_seps head) then head else rstrip is_seps head in
  (d +:+ head, tail).

(** [ntpath.dirname(p)]. *)
Definition dirname (p : string) : string := fst (split p).

End NtPath.

(** [os.path] is [posixpath] or [ntpath] according to [os.name]. *)
Module OsPath.

Definition join (h : os_name) : string -> list string -> string :=
  match h with posix => PosixPath.join | nt => NtPath.join end.
Definition split (h : os_name) : string -> string * string :=
  match h with posix => PosixPath.split | nt => NtPath.split end.
Definition dirname (h : os_name) : string -> string :=
  match h with posix => PosixPath.dirname | nt => NtPath.dirname end.

End OsPath.

(** ** The operating system: a tree of directories

    A location is a root (["/"] on POSIX; a drive with or without its root
    on Windows) and the list of components below it.  The state of the file
    system is the set of locations that are directories; the roots and the
    current directory with its ancestors always are.  The tree has no other
    kind of entry (no regular files, no symbolic links) and there is one
    process: whatever makes the system refuse to create a directory
    (permissions, a read-only or full medium) is the fixed set [denied].

    A directory of the tree is one the process can see, that is, one for
    which [os.path.isdir] is true; a directory the process cannot reach
    counts as absent and its creation as refused.  The properties below are
    properties of the script on such a file system. *)

Definition loc : Type := string * list string.

Record machine : Type := Machine {
  osname : os_name;     (* os.name *)
  getcwd : string;      (* os.getcwd() *)
  denied : gset loc     (* locations at which mkdir raises PermissionError *)
}.

(** The exceptions [os.mkdir] raises, all subclasses of [OSError];
    [PermissionError] stands for every refusal of the system that is
    neither "exists" nor "not found". *)
Inductive OSError : Set :=
  | FileExistsError
  | FileNotFoundError
  | PermissionError.

Definition is_FileExistsError (e : OSError) : bool :=
  match e with FileExistsError => true | _ => false end.

Module Os.
Import PyStr.

(** [head, tail = path.split(name)], then
    [if not tail: head, tail = path.split(head)]: the way [os.makedirs]
    takes a path apart, which is also how the tree reads one. *)
Definition split_twice (h : os_name) (name : string) : string * string :=
  let '(head, tail) := OsPath.split h name in
  if is_empty tail then OsPath.split h head else (head, tail).

(** The root a path without components denotes; the empty path denotes
    nothing.  On Windows a path with a root and no drive is on the drive of
    the current directory. *)
Definition root_of (m : machine) (head : string) : option loc :=
  if is_empty head then None
  else match osname m with
       | posix => Some ("/", [])
       | nt =>
           let '(d, r) := NtPath.splitdrive head in
           let d := if is_empty d then fst (NtPath.splitdrive (getcwd m)) else d in
           Some (d +:+ (if is_empty r && ends_in (fun c => Ascii.eqb c ":"%char) d
                        then "" else "\"), [])
       end.

(** One more component below a location. *)
Definition step (l : loc) (tail : string) : loc :=
  if String.eqb tail "." then l
  else if String.eqb tail ".." then (fst l, removelast (snd l))
  else (fst l, (snd l ++ [tail])%list).

(** The location a path denotes, from [base] for a relative path, when
    every directory on the way passes [chk]. *)
Fixpoint locate_fuel (n : nat) (m : machine) (chk : loc -> bool) (base : loc)
    (path : string) : option loc :=
  match n with
  | O => None
  | S n' =>
      let '(head, tail) := split_twice (osname m) path in
      if is_empty tail then root_of m head
      else if is_empty head then Some (step base tail)
      else match locate_fuel n' m chk base head with
           | Some l => if chk l then Some (step l tail) else None
           | None => None
           end
  end.

(** The location of the current directory: [os.getcwd()] read without
    checks, since the current directory exists. *)
Definition cwd_loc (m : machine) : loc :=
  default ("", []) (locate_fuel (S (String.length (getcwd m))) m (fun _ => true)
                      ("", []) (getcwd m)).

(** Directories that exist in every state: the roots, the current
    directory and its ancestors. *)
Definition static_dir (m : machine) (l : loc) : bool :=
  match snd l with
  | [] => true
  | _ => bool_decide (fst l = fst (cwd_loc m) /\ snd l `prefix_of` snd (cwd_loc m))
  end.

Definition is_dir (m : machine) (t : gset loc) (l : loc) : bool :=
  static_dir m l || bool_decide (l ∈ t).

Definition locate (m : machine) (t : gset loc) (path : string) : option loc :=
  locate_fuel (S (String.length path)) m (is_dir m t) (cwd_loc m) path.

(** [os.path.isdir(path)]. *)
Definition isdir (m : machine) (t : gset loc) (path : string) : bool :=
  match locate m t path with Some l => is_dir m t l | None => false end.

(** [os.path.exists(path)]: directories are the only entries. *)
Definition exists_ (m : machine) (t : gset loc) (path : string) : bool :=
  match locate m t path with Some l => is_dir m t l | None => false end.

(** [os.mkdir(path)]: the new tree, or the exception raised with the tree
    as it was. *)
Definition mkdir (m : machine) (path : string) (t : gset loc) : gset loc + OSError :=
  match locate m t path with
  | None => inr FileNotFoundError
  | Some l =>
      if is_dir m t l then inr FileExistsError
      else if bool_decide (l ∈ denied m) then inr PermissionError
      else inl ({[ l ]} ∪ t)
  end.

(** What a call that may raise leaves behind. *)
Inductive outcome : Type :=
  | Return (t : gset loc)
  | Raise (e : OSError) (t : gset loc).

Definition tree_of (o : outcome) : gset loc :=
  match o with Return t | Raise _ t => t end.

(** The end of [os.makedirs]:
    [try: mkdir(name, mode)]
    [except OSError: if not exist_ok or not path.isdir(name): raise]
    with [exist_ok=True]. *)
Definition makedirs_leaf (m : machine) (name : string) (t : gset loc) : outcome :=
  match mkdir m name t with
  | inl t' => Return t'
  | inr e => if isdir m t name then Return t else Raise e t
  end.

(** [os.makedirs(name, exist_ok=True)]; the recursion on [head] is
    counted down by [n]. *)
Fixpoint makedirs_fuel (n : nat) (m : machine) (name : string) (t : gset loc)
  : option outcome :=
  match n with
  | O => None
  | S n' =>
      let '(head, tail) := split_twice (osname m) name in
      if negb (is_empty head) && negb (is_empty tail) && negb (exists_ m t head) then
        match makedirs_fuel n' m head t with
        | None => None
        | Some (Raise e t1) =>
            if is_FileExistsError e then
              (* except FileExistsError: pass *)
              if String.eqb tail "." then Some (Return t1)
              else Some (makedirs_leaf m name t1)
            else Some (Raise e t1)
        | Some (Return t1) =>
            if String.eqb tail "." then Some (Return t1)
            else Some (makedirs_leaf m name t1)
        end
      else Some (makedirs_leaf m name t)
  end.

(** The bound is the length of the name: each recursive call is on a
    strictly shorter head, so the default below is never used
    ([makedirs_fuel_total]). *)
Definition makedirs (m : machine) (name : string) (t : gset loc) : outcome :=
  default (Raise FileNotFoundError t)
    (makedirs_fuel (S (String.length name)) m name t).

(** The test [head and tail and not path.exists(head)] of [os.makedirs]:
    whether the call on [name] starts with a recursive call. *)
Definition recurses (m : machine) (name : string) (t : gset loc) : bool :=
  let '(head, tail) := split_twice (osname m) name in
  negb (is_empty head) && negb (is_empty tail) && negb (exists_ m t head).

End Os.

(** ** The script *)

(** [os.getenv(key, default)] on [os.environ]. *)
Definition getenv (environ : gmap string string) (key default_ : string) : string :=
  default default_ (environ !! key).

(** Line 16:
    [default_log_dir = '/tmp' if os.name != 'nt' else os.getenv('TEMP', os.getcwd())]. *)
Definition default_log_dir (m : machine) (environ : gmap string string) : string :=
  if negb (os_name_eqb (osname m) nt) then "/tmp"
  else getenv environ "TEMP" (getcwd m).

(** Lines 17-20: the first value of [log_path]. *)
Definition log_path_init (m : machine) (environ : gmap string string) : string :=
  getenv environ "PESAPAL_LOG_PATH"
    (OsPath.join (osname m) (default_log_dir m environ) ["pesapal_logs"; "pesapal.log"]).

(** Line 28: [os.path.join('/tmp', 'pesapal_logs', 'pesapal.log')]. *)
Definition log_path_tmp (h : os_name) : string :=
  OsPath.join h "/tmp" ["pesapal_logs"; "pesapal.log"].

(** One call of [os.makedirs] and the exception it raised, if any. *)
Inductive call : Type :=
  | Makedirs (dir : string) (raised : option OSError).

Definition succeeded (c : call) : bool :=
  match c with Makedirs _ None => true | Makedirs _ (Some _) => false end.

(** A run of the script: the final value of [log_path] or the exception
    that escapes, the directory tree it leaves and the [os.makedirs] calls
    it made, in order. *)
Record run : Type := Run {
  value : string + OSError;
  tree : gset loc;
  calls : list call
}.

(** Lines 16-31. *)
Definition log_path (m : machine) (environ : gmap string string) (t : gset loc) : run :=
  let h := osname m in
  let log_path := log_path_init m environ in
  match Os.makedirs m (OsPath.dirname h log_path) t with
  | Os.Return t1 =>
      Run (inl log_path) t1 [Makedirs (OsPath.dirname h log_path) None]
  | Os.Raise e t1 =>
      if negb (PyStr.startswith log_path "/tmp") then
        let log_path' := log_path_tmp h in
        match Os.makedirs m (OsPath.dirname h log_path') t1 with
        | Os.Return t2 =>
            Run (inl log_path') t2
              [Makedirs (OsPath.dirname h log_path) (Some e);
               Makedirs (OsPath.dirname h log_path') None]
        | Os.Raise e' t2 =>
            Run (inr e') t2
              [Makedirs (OsPath.dirname h log_path) (Some e);
               Makedirs (OsPath.dirname h log_path') (Some e')]
        end
      else Run (inr e) t1 [Makedirs (OsPath.dirname h log_path) (Some e)]
  end.

(** ** Relations and predicates used in the statements *)

(** A tree [t'] that a process can reach from [t]: nothing is removed and
    nothing is created where the system refuses. *)
Definition grows (m : machine) (t t' : gset loc) : Prop :=
  t ⊆ t' /\ forall l, l ∈ t' -> l ∉ t -> l ∉ denied m.

(** The calls of [os.makedirs] as a relation, one rule per way through its
    body: no recursion, the recursive call raises, the name ends in ["."],
    and the recursive call is followed by [mkdir]. *)
Inductive makedirs_run (m : machine) : string -> gset loc -> Os.outcome -> Prop :=
  | run_leaf name t head tail :
      Os.split_twice (osname m) name = (head, tail) ->
      negb (PyStr.is_empty head) && negb (PyStr.is_empty tail)
        && negb (Os.exists_ m t head) = false ->
      makedirs_run m name t (Os.makedirs_leaf m name t)
  | run_raise name t head tail e t1 :
      Os.split_twice (osname m) name = (head, tail) ->
      PyStr.is_empty head = false -> PyStr.is_empty tail = false ->
      Os.isdir m t head = false ->
      makedirs_run m head t (Os.Raise e t1) ->
      is_FileExistsError e = false ->
      makedirs_run m name t (Os.Raise e t1)
  | run_dot name t head o1 t1 :
      Os.split_twice (osname m) name = (head, ".") ->
      PyStr.is_empty head = false ->
      Os.isdir m t head = false ->
      makedirs_run m head t o1 ->
      (o1 = Os.Return t1 \/ o1 = Os.Raise FileExistsError t1) ->
      makedirs_run m name t (Os.Return t1)
  | run_more name t head tail o1 t1 :
      Os.split_twice (osname m) name = (head, tail) ->
      PyStr.is_empty head = false -> PyStr.is_empty tail = false ->
      tail <> "." ->
      Os.isdir m t head = false ->
      makedirs_run m head t o1 ->
      (o1 = Os.Return t1 \/ o1 = Os.Raise FileExistsError t1) ->
      makedirs_run m name t (Os.makedirs_leaf m name t1).

(** The characters that make [os.path.dirname] non-empty: the separator on
    POSIX; both separators and the drive colon on Windows. *)
Definition names_directory (h : os_name) (c : ascii) : bool :=
  match h with
  | posix => PosixPath.is_sep c
  | nt => NtPath.is_seps c || Ascii.eqb c ":"%char
  end.

(** A bare file name: no character of it names a directory. *)
Definition bare_name (h : os_name) (p : string) : bool :=
  PyStr.all_chars (fun c => negb (names_directory h c)) p.

(** The head that [posixpath.split] yields for [p] joined with one more
    name: [p] without its trailing separators, unless [p] is only
    separators. *)
Definition posix_head_of (p : string) : string :=
  if PyStr.is_empty p then ""
  else if PyStr.all_chars PosixPath.is_sep p then p
  else PyStr.rstrip PosixPath.is_sep p.

(** ** Machines and environments used as instances *)

Module Examples.

(** A POSIX host on which [/tmp], [/root] and [/srv] exist and the process
    may not create [/root/forbidden], [/tmp/forbidden], [/tmp/a/b] or
    [/tmpdata]. *)
Definition linux : machine :=
  Machine posix "/srv/app"
    {[ ("/", ["root"; "forbidden"]); ("/", ["tmp"; "forbidden"]);
       ("/", ["tmp"; "a"; "b"]); ("/", ["tmpdata"]) ]}.

Definition linux_tree : gset loc :=
  {[ ("/", ["tmp"]); ("/", ["root"]); ("/", ["srv"]) ]}.

(** The same host when nothing may be created under [/tmp] either. *)
Definition linux_readonly : machine :=
  Machine posix "/srv/app"
    {[ ("/", ["root"; "forbidden"]); ("/", ["tmp"; "pesapal_logs"]) ]}.

(** A Windows host with current directory [C:\work] on which the process
    may not create [Z:\forbidden]. *)
Definition windows : machine :=
  Machine nt "C:\work" {[ ("Z:\", ["forbidden"]) ]}.

Definition pinned (path : string) : gmap string string :=
  {[ "PESAPAL_LOG_PATH" := path ]}.


End Examples.

(** * Properties *)

(** ** The library functions on sample paths *)

Example posix_join_tmp :
  PosixPath.join "/tmp" ["pesapal_logs"; "pesapal.log"] = "/tmp/pesapal_logs/pesapal.log".
Proof. reflexivity. Qed.

Example nt_join_tmp :
  NtPath.join "/tmp" ["pesapal_logs"; "pesapal.log"] = "/tmp\pesapal_logs\pesapal.log".
Proof. reflexivity. Qed.

Example nt_join_unc : NtPath.join "\\srv\share" ["a"] = "\\srv\share\a".
Proof. reflexivity. Qed.

Example posix_split_trailing : PosixPath.split "/a/b//" = ("/a/b", "").
Proof. reflexivity. Qed.

Example posix_split_root : PosixPath.split "//" = ("//", "").
Proof. reflexivity. Qed.

Example posix_dirname_relative : PosixPath.dirname "logs/pesapal.log" = "logs".
Proof. reflexivity. Qed.

Example nt_split_mixed : NtPath.split "C:/a\b" = ("C:/a", "b").
Proof. reflexivity. Qed.

Example nt_split_drive : NtPath.split "C:\" = ("C:\", "").
Proof. reflexivity. Qed.

Example nt_dirname_drive_relative : NtPath.dirname "C:pesapal.log" = "C:".
Proof. reflexivity. Qed.

Example startswith_tmpdata : PyStr.startswith "/tmpdata/pesapal.log" "/tmp" = true.
Proof. reflexivity. Qed.

Example startswith_double_slash : PyStr.startswith "//tmp/pesapal.log" "/tmp" = false.
Proof. reflexivity. Qed.

(** [os.makedirs('a/../../b/c')] from [/srv/app]: the head [a/../..] is
    made first, which creates [/srv/app/a]; then [/srv/b] and [/srv/b/c]. *)
Example makedirs_dotdot :
  Os.makedirs (Machine posix "/srv/app" ∅) "a/../../b/c" ∅ =
    Os.Return (list_to_set [("/", ["srv"; "b"]); ("/", ["srv"; "b"; "c"]);
                            ("/", ["srv"; "app"; "a"])]).
Proof. vm_compute. reflexivity. Qed.

(** ** Lengths of the pieces of a path *)

Section StringFacts.
Import PyStr.

Lemma is_empty_true (s : string) : is_empty s = true <-> s = "".
Proof. destruct s; simpl; split; congruence. Qed.

Lemma is_empty_false (s : string) : is_empty s = false <-> s <> "".
Proof. destruct s; simpl; split; congruence. Qed.

Lemma app_cons (c : ascii) (a b : string) :
  String c a +:+ b = String c (a +:+ b).
Proof. reflexivity. Qed.

Lemma app_empty_l (b : string) : "" +:+ b = b.
Proof. reflexivity. Qed.

Lemma app_empty_r (a : string) : a +:+ "" = a.
Proof.
  induction a as [|c a IH]; [reflexivity|].
  rewrite app_cons; now rewrite IH.
Qed.

Lemma length_app (a b : string) :
  String.length (a +:+ b) = String.length a + String.length b.
Proof.
  induction a as [|c a IH]; [reflexivity|].
  rewrite app_cons; simpl; now rewrite IH.
Qed.

Lemma take_drop (i : nat) (s : string) : take i s +:+ drop i s = s.
Proof.
  revert s; induction i as [|i IH]; intros [|c s]; simpl; try reflexivity.
  rewrite app_cons; f_equal; apply IH.
Qed.

Lemma rsplit_app (isc : ascii -> bool) (s h t : string) :
  rsplit isc s = (h, t) -> h +:+ t = s.
Proof.
  revert h t; induction s as [|c s IH]; simpl; intros h t.
  - intros [= <- <-]; reflexivity.
  - destruct (rsplit isc s) as [h' t'].
    specialize (IH _ _ eq_refl).
    destruct (is_empty h') eqn:E.
    + apply is_empty_true in E; subst h'; rewrite app_empty_l in IH; subst t'.
      destruct (isc c); intros [= <- <-]; reflexivity.
    + intros [= <- <-]; rewrite app_cons; now rewrite IH.
Qed.

Lemma rsplit_length (isc : ascii -> bool) (s h t : string) :
  rsplit isc s = (h, t) -> String.length h + String.length t = String.length s.
Proof. intros H; apply rsplit_app in H; subst s; now rewrite length_app. Qed.

Lemma rstrip_length (isc : ascii -> bool) (s : string) :
  String.length (rstrip isc s) <= String.length s.
Proof.
  induction s as [|c s IH]; simpl; [lia|].
  destruct (is_empty (rstrip isc s) && isc c); simpl; lia.
Qed.

Lemma posix_split_length (p head tail : string) :
  PosixPath.split p = (head, tail) ->
  String.length head + String.length tail <= String.length p.
Proof.
  unfold PosixPath.split.
  destruct (rsplit PosixPath.is_sep p) as [h t] eqn:E.
  apply rsplit_length in E.
  intros [= <- <-].
  destruct (negb (is_empty h) && negb (all_chars PosixPath.is_sep h));
    [pose proof (rstrip_length PosixPath.is_sep h)|]; lia.
Qed.

Lemma splitdrive_app (p d r : string) :
  NtPath.splitdrive p = (d, r) -> d +:+ r = p.
Proof.
  unfold NtPath.splitdrive.
  repeat match goal with
         | |- context [if ?b then _ else _] => destruct b
         | |- context [match ?o with Some _ => _ | None => _ end] => destruct o
         end;
    intros [= <- <-];
    first [apply take_drop | apply (take_drop 2 p) | reflexivity | apply app_empty_r].
Qed.

Lemma nt_split_length (p head tail : string) :
  NtPath.split p = (head, tail) ->
  String.length head + String.length tail <= String.length p.
Proof.
  unfold NtPath.split.
  destruct (NtPath.splitdrive p) as [d r] eqn:D.
  apply splitdrive_app in D.
  destruct (rsplit NtPath.is_seps r) as [h t] eqn:E.
  apply rsplit_length in E.
  intros [= <- <-].
  subst p. rewrite !length_app.
  pose proof (rstrip_length NtPath.is_seps h).
  destruct (is_empty (rstrip NtPath.is_seps h)); lia.
Qed.

Lemma split_length (h : os_name) (p head tail : string) :
  OsPath.split h p = (head, tail) ->
  String.length head + String.length tail <= String.length p.
Proof. destruct h; [apply posix_split_length | apply nt_split_length]. Qed.

(** The head [os.makedirs] recurses on is strictly shorter than the
    name it was given. *)
Lemma split_twice_shorter (h : os_name) (name head tail : string) :
  Os.split_twice h name = (head, tail) ->
  is_empty tail = false ->
  String.length head < String.length name.
Proof.
  unfold Os.split_twice.
  destruct (OsPath.split h name) as [h1 t1] eqn:E1.
  apply split_length in E1.
  destruct (is_empty t1) eqn:Et.
  - intros E2 Hne. apply split_length in E2.
    destruct tail; [discriminate|]. simpl in E2. lia.
  - intros [= <- <-] _. destruct t1; [discriminate|]. simpl in E1. lia.
Qed.

End StringFacts.

(** ** The recursion of [os.makedirs] and of the tree's path reading *)

Section Recursion.
Import PyStr Os.
Variable m : machine.

Lemma locate_fuel_stable (chk : loc -> bool) (base : loc) (n1 : nat) :
  forall n2 path,
    String.length path < n1 -> String.length path < n2 ->
    locate_fuel n1 m chk base path = locate_fuel n2 m chk base path.
Proof.
  induction n1 as [|n1 IH]; intros [|n2] path H1 H2; try lia.
  simpl.
  destruct (split_twice (osname m) path) as [head tail] eqn:E.
  destruct (is_empty tail) eqn:Et; [reflexivity|].
  destruct (is_empty head); [reflexivity|].
  pose proof (split_twice_shorter _ _ _ _ E Et).
  rewrite (IH n2 head) by lia. reflexivity.
Qed.

(** The defining equation of [locate]. *)
Lemma locate_eq (t : gset loc) (path : string) :
  locate m t path =
    let '(head, tail) := split_twice (osname m) path in
    if is_empty tail then root_of m head
    else if is_empty head then Some (step (cwd_loc m) tail)
    else match locate m t head with
         | Some l => if is_dir m t l then Some (step l tail) else None
         | None => None
         end.
Proof.
  unfold locate at 1. simpl.
  destruct (split_twice (osname m) path) as [head tail] eqn:E.
  destruct (is_empty tail) eqn:Et; [reflexivity|].
  destruct (is_empty head); [reflexivity|].
  pose proof (split_twice_shorter _ _ _ _ E Et).
  unfold locate.
  rewrite (locate_fuel_stable _ _ (String.length path) (S (String.length head)))
    by lia.
  reflexivity.
Qed.

Lemma makedirs_fuel_stable (n1 : nat) :
  forall n2 name t,
    String.length name < n1 -> String.length name < n2 ->
    makedirs_fuel n1 m name t = makedirs_fuel n2 m name t.
Proof.
  induction n1 as [|n1 IH]; intros [|n2] name t H1 H2; try lia.
  simpl.
  destruct (split_twice (osname m) name) as [head tail] eqn:E.
  destruct (is_empty tail) eqn:Et.
  - rewrite andb_false_r. reflexivity.
  - destruct (negb (is_empty head) && negb false && negb (exists_ m t head));
      [|reflexivity].
    pose proof (split_twice_shorter _ _ _ _ E Et).
    rewrite (IH n2 head) by lia. reflexivity.
Qed.

(** The recursion of [os.makedirs] ends: with the length of the name as
    its bound it always yields an outcome. *)
Lemma makedirs_fuel_total (n : nat) :
  forall name t,
    String.length name < n -> exists o, makedirs_fuel n m name t = Some o.
Proof.
  induction n as [|n IH]; intros name t H; [lia|].
  simpl.
  destruct (split_twice (osname m) name) as [head tail] eqn:E.
  destruct (is_empty tail) eqn:Et.
  - rewrite andb_false_r. eauto.
  - destruct (negb (is_empty head) && negb false && negb (exists_ m t head));
      [|eauto].
    pose proof (split_twice_shorter _ _ _ _ E Et).
    destruct (IH head t) as [o ->]; [lia|].
    destruct o as [t1|e t1]; [|destruct (is_FileExistsError e)];
      try destruct (String.eqb tail "."); eauto.
Qed.

Lemma makedirs_fuel_makedirs (n : nat) (name : string) (t : gset loc) :
  String.length name < n ->
  makedirs_fuel n m name t = Some (makedirs m name t).
Proof.
  intros H. unfold makedirs.
  rewrite (makedirs_fuel_stable n (S (String.length name))) by lia.
  destruct (makedirs_fuel_total (S (String.length name)) name t) as [o ->]; [lia|].
  reflexivity.
Qed.

(** The defining equation of [makedirs]: the body of [os.makedirs]. *)
Lemma makedirs_eq (name : string) (t : gset loc) :
  makedirs m name t =
    let '(head, tail) := split_twice (osname m) name in
    if negb (is_empty head) && negb (is_empty tail) && negb (exists_ m t head) then
      match makedirs m head t with
      | Raise e t1 =>
          if is_FileExistsError e then
            if String.eqb tail "." then Return t1 else makedirs_leaf m name t1
          else Raise e t1
      | Return t1 =>
          if String.eqb tail "." then Return t1 else makedirs_leaf m name t1
      end
    else makedirs_leaf m name t.
Proof.
  assert (H : Some (makedirs m name t) = makedirs_fuel (S (String.length name)) m name t)
    by (symmetry; apply makedirs_fuel_makedirs; lia).
  simpl in H.
  destruct (split_twice (osname m) name) as [head tail] eqn:E.
  destruct (is_empty tail) eqn:Et.
  - destruct (is_empty head); cbn [negb andb] in *; congruence.
  - destruct (negb (is_empty head) && negb false && negb (exists_ m t head));
      [|congruence].
    pose proof (split_twice_shorter _ _ _ _ E Et).
    rewrite (makedirs_fuel_makedirs (String.length name) head t) in H by lia.
    destruct (makedirs m head t) as [t1|e t1]; [|destruct (is_FileExistsError e)];
      try destruct (String.eqb tail "."); congruence.
Qed.

(** Induction on a path along its heads. *)
Lemma path_ind (P : string -> Prop) :
  (forall name,
      (forall head tail,
          split_twice (osname m) name = (head, tail) ->
          is_empty tail = false -> P head) ->
      P name) ->
  forall name, P name.
Proof.
  intros step name.
  assert (H : forall n name, String.length name < n -> P name).
  { induction n as [|n IH]; intros name' Hn; [lia|].
    apply step. intros head tail E Et.
    apply IH. pose proof (split_twice_shorter _ _ _ _ E Et). lia. }
  apply (H (S (String.length name))). lia.
Qed.

End Recursion.

(** ** The directory tree under [mkdir] and [makedirs] *)

Section Tree.
Import PyStr Os.
Variable m : machine.

Lemma grows_refl (t : gset loc) : grows m t t.
Proof. split; [set_solver | intros l H1 H2; contradiction]. Qed.

Lemma grows_trans (t1 t2 t3 : gset loc) :
  grows m t1 t2 -> grows m t2 t3 -> grows m t1 t3.
Proof.
  intros [S12 D12] [S23 D23]. split; [set_solver|].
  intros l H3 H1. destruct (decide (l ∈ t2)); auto.
Qed.

Lemma is_dir_mono (t t' : gset loc) (l : loc) :
  t ⊆ t' -> is_dir m t l = true -> is_dir m t' l = true.
Proof.
  unfold is_dir. intros Hs H.
  apply orb_true_iff in H as [H|H]; [now rewrite H|].
  apply bool_decide_eq_true in H.
  apply orb_true_iff; right. apply bool_decide_eq_true. set_solver.
Qed.

Lemma is_dir_elem (t : gset loc) (l : loc) : l ∈ t -> is_dir m t l = true.
Proof.
  intros H. unfold is_dir. apply orb_true_iff; right.
  now apply bool_decide_eq_true.
Qed.

Lemma locate_fuel_chk_mono (chk chk' : loc -> bool) (base : loc) (n : nat) :
  (forall l, chk l = true -> chk' l = true) ->
  forall path l,
    locate_fuel n m chk base path = Some l ->
    locate_fuel n m chk' base path = Some l.
Proof.
  intros Hc. induction n as [|n IH]; intros path l; simpl; [discriminate|].
  destruct (split_twice (osname m) path) as [head tail].
  destruct (is_empty tail); [auto|].
  destruct (is_empty head); [auto|].
  destruct (locate_fuel n m chk base head) as [l0|] eqn:E; [|discriminate].
  rewrite (IH _ _ E).
  destruct (chk l0) eqn:C; [|discriminate].
  now rewrite (Hc _ C).
Qed.

(** A path keeps its location when the tree grows. *)
Lemma locate_mono (t t' : gset loc) (path : string) (l : loc) :
  t ⊆ t' -> locate m t path = Some l -> locate m t' path = Some l.
Proof.
  intros Hs. unfold locate. apply locate_fuel_chk_mono.
  intros l0. now apply is_dir_mono.
Qed.



Lemma exists_isdir (t : gset loc) (path : string) :
  exists_ m t path = isdir m t path.
Proof. reflexivity. Qed.

(** A directory's head, in the sense of [os.makedirs], is a directory. *)
Lemma isdir_head (t : gset loc) (name head tail : string) :
  split_twice (osname m) name = (head, tail) ->
  is_empty head = false -> is_empty tail = false ->
  isdir m t name = true -> isdir m t head = true.
Proof.
  intros E Eh Et. unfold isdir at 1. rewrite locate_eq, E, Et, Eh.
  unfold isdir.
  destruct (locate m t head) as [lh|]; [|discriminate].
  destruct (is_dir m t lh); [reflexivity | discriminate].
Qed.

(** [name] is [head] followed by ["."]. *)
Lemma isdir_dot (t : gset loc) (name head : string) :
  split_twice (osname m) name = (head, ".") ->
  is_empty head = false ->
  isdir m t head = true -> isdir m t name = true.
Proof.
  intros E Eh. unfold isdir at 2. rewrite locate_eq, E, Eh. simpl.
  unfold isdir.
  destruct (locate m t head) as [lh|]; [|discriminate].
  intros H. rewrite H. unfold step. simpl. exact H.
Qed.

(** *** [os.mkdir] *)

Lemma mkdir_inl (path : string) (t t' : gset loc) :
  mkdir m path t = inl t' ->
  exists l, locate m t path = Some l /\ is_dir m t l = false
            /\ (l ∉ denied m) /\ t' = {[ l ]} ∪ t.
Proof.
  unfold mkdir.
  destruct (locate m t path) as [l|]; [|discriminate].
  destruct (is_dir m t l) eqn:D; [discriminate|].
  destruct (bool_decide (l ∈ denied m)) eqn:B; [discriminate|].
  intros [= <-]. exists l. repeat split; auto.
  now apply bool_decide_eq_false in B.
Qed.

Lemma mkdir_grows (path : string) (t t' : gset loc) :
  mkdir m path t = inl t' -> grows m t t'.
Proof.
  intros H. apply mkdir_inl in H as (l & _ & _ & Hd & ->).
  split; [set_solver|].
  intros l' Hin Hnot.
  apply elem_of_union in Hin as [Hin|Hin]; [|contradiction].
  apply elem_of_singleton in Hin. now rewrite Hin.
Qed.

Lemma mkdir_isdir (path : string) (t t' : gset loc) :
  mkdir m path t = inl t' -> isdir m t' path = true.
Proof.
  intros H. apply mkdir_inl in H as (l & Hl & _ & _ & ->).
  unfold isdir. rewrite (locate_mono t _ _ l); [|set_solver|exact Hl].
  apply is_dir_elem. set_solver.
Qed.

(** *** The last step of [os.makedirs] *)

Lemma makedirs_leaf_Return (name : string) (t t' : gset loc) :
  makedirs_leaf m name t = Return t' ->
  isdir m t' name = true /\ grows m t t'.
Proof.
  unfold makedirs_leaf.
  destruct (mkdir m name t) as [t1|e] eqn:E.
  - intros [= <-]. eauto using mkdir_isdir, mkdir_grows.
  - destruct (isdir m t name) eqn:D; [|discriminate].
    intros [= <-]. auto using grows_refl.
Qed.

Lemma makedirs_leaf_Raise (name : string) (t t' : gset loc) (e : OSError) :
  makedirs_leaf m name t = Raise e t' ->
  t' = t /\ isdir m t name = false /\ e <> FileExistsError
  /\ (locate m t name = None
      \/ exists l, locate m t name = Some l /\ is_dir m t l = false /\ l ∈ denied m).
Proof.
  unfold makedirs_leaf, mkdir, isdir.
  destruct (locate m t name) as [l|].
  - destruct (is_dir m t l) eqn:D; [discriminate|].
    destruct (bool_decide (l ∈ denied m)) eqn:B; [|discriminate].
    apply bool_decide_eq_true in B.
    intros [= <- <-]. repeat split; eauto; discriminate.
  - intros [= <- <-]. repeat split; auto; discriminate.
Qed.

Lemma makedirs_leaf_isdir (name : string) (t : gset loc) :
  isdir m t name = true -> makedirs_leaf m name t = Return t.
Proof.
  unfold makedirs_leaf, mkdir, isdir.
  destruct (locate m t name) as [l|]; [|discriminate].
  intros ->. reflexivity.
Qed.

End Tree.

(** ** Runs of [os.makedirs] *)

Section Makedirs.
Import PyStr Os.
Variable m : machine.

(** Every call follows one of the rules. *)
Lemma makedirs_runs (name : string) :
  forall t, makedirs_run m name t (makedirs m name t).
Proof.
  induction name as [name IH] using (path_ind m). intros t.
  rewrite makedirs_eq.
  destruct (split_twice (osname m) name) as [head tail] eqn:E.
  destruct (negb (is_empty head) && negb (is_empty tail) && negb (exists_ m t head))
    eqn:C.
  - apply andb_true_iff in C as [C C3]. apply andb_true_iff in C as [C1 C2].
    apply negb_true_iff in C1, C2, C3. rewrite exists_isdir in C3.
    specialize (IH head tail eq_refl C2 t).
    destruct (makedirs m head t) as [t1|e t1] eqn:M.
    + destruct (String.eqb tail ".") eqn:D.
      * apply String.eqb_eq in D; subst tail. eapply run_dot; eauto.
      * apply String.eqb_neq in D. eapply run_more; eauto.
    + destruct e; simpl.
      * destruct (String.eqb tail ".") eqn:D.
        -- apply String.eqb_eq in D; subst tail. eapply run_dot; eauto.
        -- apply String.eqb_neq in D. eapply run_more; eauto.
      * eapply run_raise; eauto.
      * eapply run_raise; eauto.
  - eapply run_leaf; eauto.
Qed.

(** [FileExistsError] never leaves [os.makedirs(..., exist_ok=True)]: in a
    tree of directories, what exists is a directory. *)
Lemma run_not_FileExistsError (name : string) (t : gset loc) (o : outcome) :
  makedirs_run m name t o ->
  forall e t', o = Raise e t' -> is_FileExistsError e = false.
Proof.
  induction 1 as [name t head tail E C
                 |name t head tail e t1 E Eh Et D R IH F
                 |name t head o1 t1 E Eh D R IH P
                 |name t head tail o1 t1 E Eh Et Nd D R IH P];
    intros e' t' Ho.
  - apply makedirs_leaf_Raise in Ho as (_ & _ & Hne & _).
    destruct e'; simpl; congruence.
  - congruence.
  - discriminate.
  - apply makedirs_leaf_Raise in Ho as (_ & _ & Hne & _).
    destruct e'; simpl; congruence.
Qed.

Lemma run_passes (name : string) (t : gset loc) (o1 : outcome) (t1 : gset loc) :
  makedirs_run m name t o1 ->
  o1 = Return t1 \/ o1 = Raise FileExistsError t1 ->
  o1 = Return t1.
Proof.
  intros R [H|H]; [exact H|].
  pose proof (run_not_FileExistsError _ _ _ R _ _ H). discriminate.
Qed.

(** A call only adds directories, and none where the system refuses. *)
Lemma run_grows (name : string) (t : gset loc) (o : outcome) :
  makedirs_run m name t o -> grows m t (tree_of o).
Proof.
  induction 1 as [name t head tail E C
                 |name t head tail e t1 E Eh Et D R IH F
                 |name t head o1 t1 E Eh D R IH P
                 |name t head tail o1 t1 E Eh Et Nd D R IH P].
  - destruct (makedirs_leaf m name t) as [t'|e t'] eqn:L.
    + apply makedirs_leaf_Return in L. tauto.
    + apply makedirs_leaf_Raise in L as (-> & _). apply grows_refl.
  - exact IH.
  - apply (run_passes _ _ _ _ R) in P; subst o1. exact IH.
  - apply (run_passes _ _ _ _ R) in P; subst o1. simpl in IH.
    apply (grows_trans m _ t1); [exact IH|].
    destruct (makedirs_leaf m name t1) as [t'|e t'] eqn:L.
    + apply makedirs_leaf_Return in L. tauto.
    + apply makedirs_leaf_Raise in L as (-> & _). apply grows_refl.
Qed.

(** When a call returns, the name is a directory. *)
Lemma run_Return_isdir (name : string) (t : gset loc) (o : outcome) :
  makedirs_run m name t o ->
  forall t', o = Return t' -> isdir m t' name = true.
Proof.
  induction 1 as [name t head tail E C
                 |name t head tail e t1 E Eh Et D R IH F
                 |name t head o1 t1 E Eh D R IH P
                 |name t head tail o1 t1 E Eh Et Nd D R IH P];
    intros t' Ho.
  - apply makedirs_leaf_Return in Ho. tauto.
  - discriminate.
  - injection Ho as <-.
    apply (run_passes _ _ _ _ R) in P; subst o1.
    apply (isdir_dot m _ _ head); auto.
  - apply makedirs_leaf_Return in Ho. tauto.
Qed.

End Makedirs.

Section MakedirsFacts.
Import PyStr Os.
Variable m : machine.

Lemma makedirs_grows (name : string) (t : gset loc) :
  grows m t (tree_of (makedirs m name t)).
Proof. apply run_grows with (name := name), makedirs_runs. Qed.

Lemma makedirs_Return_isdir (name : string) (t t' : gset loc) :
  makedirs m name t = Return t' -> isdir m t' name = true.
Proof.
  intros H. apply (run_Return_isdir m name t (makedirs m name t)); auto.
  apply makedirs_runs.
Qed.

(** [exist_ok=True]: on a directory, [os.makedirs] returns and changes
    nothing. *)
Lemma makedirs_isdir (name : string) (t : gset loc) :
  isdir m t name = true -> makedirs m name t = Return t.
Proof.
  intros H. rewrite makedirs_eq.
  destruct (split_twice (osname m) name) as [head tail] eqn:E.
  destruct (is_empty head) eqn:Eh; simpl; [now apply makedirs_leaf_isdir|].
  destruct (is_empty tail) eqn:Et; simpl; [now apply makedirs_leaf_isdir|].
  rewrite exists_isdir, (isdir_head m t name head tail E Eh Et H). simpl.
  now apply makedirs_leaf_isdir.
Qed.

(** Without a recursive call, a call that raises leaves the tree as it
    was. *)
Lemma makedirs_Raise_flat (name : string) (t t' : gset loc) (e : OSError) :
  recurses m name t = false ->
  makedirs m name t = Raise e t' -> t' = t.
Proof.
  unfold recurses. rewrite makedirs_eq.
  destruct (split_twice (osname m) name) as [head tail].
  intros ->. intros H. now apply makedirs_leaf_Raise in H.
Qed.





End MakedirsFacts.

(** ** The script: what a run does, by cases *)

Section Script.
Import PyStr Os.
Variables (m : machine) (environ : gmap string string) (t : gset loc).

Let h := osname m.
Let lp := log_path_init m environ.

(** The first [os.makedirs] returns: lines 23-24 only. *)
Lemma log_path_first (t1 : gset loc) :
  makedirs m (OsPath.dirname h lp) t = Return t1 ->
  log_path m environ t = Run (inl lp) t1 [Makedirs (OsPath.dirname h lp) None].
Proof. unfold log_path. fold h lp. now intros ->. Qed.

(** The first call raises and the path starts with [/tmp]: line 31. *)
Lemma log_path_reraise (e : OSError) (t1 : gset loc) :
  makedirs m (OsPath.dirname h lp) t = Raise e t1 ->
  startswith lp "/tmp" = true ->
  log_path m environ t = Run (inr e) t1 [Makedirs (OsPath.dirname h lp) (Some e)].
Proof. unfold log_path. fold h lp. now intros -> ->. Qed.

(** The first call raises, the path does not start with [/tmp] and the
    second call returns: lines 28-29. *)
Lemma log_path_second (e : OSError) (t1 t2 : gset loc) :
  makedirs m (OsPath.dirname h lp) t = Raise e t1 ->
  startswith lp "/tmp" = false ->
  makedirs m (OsPath.dirname h (log_path_tmp h)) t1 = Return t2 ->
  log_path m environ t =
    Run (inl (log_path_tmp h)) t2
      [Makedirs (OsPath.dirname h lp) (Some e);
       Makedirs (OsPath.dirname h (log_path_tmp h)) None].
Proof. unfold log_path. fold h lp. now intros -> -> ->. Qed.

(** Both calls raise: the second exception leaves line 29. *)
Lemma log_path_second_raises (e e' : OSError) (t1 t2 : gset loc) :
  makedirs m (OsPath.dirname h lp) t = Raise e t1 ->
  startswith lp "/tmp" = false ->
  makedirs m (OsPath.dirname h (log_path_tmp h)) t1 = Raise e' t2 ->
  log_path m environ t =
    Run (inr e') t2
      [Makedirs (OsPath.dirname h lp) (Some e);
       Makedirs (OsPath.dirname h (log_path_tmp h)) (Some e')].
Proof. unfold log_path. fold h lp. now intros -> -> ->. Qed.


End Script.

Lemma getenv_set (environ : gmap string string) (key v d : string) :
  environ !! key = Some v -> getenv environ key d = v.
Proof. unfold getenv. now intros ->. Qed.

Lemma getenv_unset (environ : gmap string string) (key d : string) :
  environ !! key = None -> getenv environ key d = d.
Proof. unfold getenv. now intros ->. Qed.

Lemma log_path_tmp_posix : log_path_tmp posix = "/tmp/pesapal_logs/pesapal.log".
Proof. reflexivity. Qed.

Lemma log_path_tmp_nt : log_path_tmp nt = "/tmp\pesapal_logs\pesapal.log".
Proof. reflexivity. Qed.

(** ** File names without a directory *)

Section BareNames.
Import PyStr Os.

Lemma rsplit_none (isc : ascii -> bool) (s : string) :
  all_chars (fun c => negb (isc c)) s = true -> rsplit isc s = ("", s).
Proof.
  induction s as [|c s IH]; simpl; [reflexivity|].
  intros H. apply andb_true_iff in H as [Hc Hs].
  rewrite (IH Hs). simpl. apply negb_true_iff in Hc. now rewrite Hc.
Qed.

Lemma all_chars_weaken (f g : ascii -> bool) (s : string) :
  (forall c, f c = true -> g c = true) ->
  all_chars f s = true -> all_chars g s = true.
Proof.
  intros Hfg. induction s as [|c s IH]; simpl; [reflexivity|].
  intros H. apply andb_true_iff in H as [Hc Hs].
  rewrite (Hfg _ Hc), (IH Hs). reflexivity.
Qed.

Lemma posix_dirname_bare (p : string) :
  bare_name posix p = true -> PosixPath.dirname p = "".
Proof.
  unfold bare_name, PosixPath.dirname. simpl. intros H.
  rewrite (rsplit_none _ _ H). reflexivity.
Qed.

Lemma splitdrive_bare (p : string) :
  bare_name nt p = true -> NtPath.splitdrive p = ("", p).
Proof.
  unfold bare_name, NtPath.splitdrive. simpl names_directory.
  destruct p as [|a [|b p]]; try reflexivity.
  simpl. unfold NtPath.is_seps.
  destruct (Ascii.eqb a "\"%char) eqn:A1; [discriminate|].
  destruct (Ascii.eqb a "/"%char) eqn:A2; [discriminate|].
  destruct (Ascii.eqb b ":"%char) eqn:B3;
    [rewrite !orb_true_r; simpl; rewrite ?andb_false_r; discriminate|].
  intros _. unfold slice. simpl.
  rewrite A1. destruct (Ascii.eqb b "/"%char); simpl; rewrite ?B3; reflexivity.
Qed.

Lemma nt_dirname_bare (p : string) :
  bare_name nt p = true -> NtPath.dirname p = "".
Proof.
  intros H. unfold NtPath.dirname, NtPath.split.
  rewrite (splitdrive_bare _ H).
  rewrite (rsplit_none NtPath.is_seps p); [reflexivity|].
  revert H. unfold bare_name. apply all_chars_weaken.
  intros c. simpl. destruct (NtPath.is_seps c); simpl; congruence.
Qed.

(** [os.path.dirname] of a bare file name is the empty string. *)
Lemma dirname_bare (h : os_name) (p : string) :
  bare_name h p = true -> OsPath.dirname h p = "".
Proof. destruct h; [apply posix_dirname_bare | apply nt_dirname_bare]. Qed.

(** A bare file name does not start with [/tmp]. *)
Lemma startswith_bare (h : os_name) (p : string) :
  bare_name h p = true -> startswith p "/tmp" = false.
Proof.
  destruct p as [|c p]; [reflexivity|].
  unfold bare_name. intros H. simpl in H.
  apply andb_true_iff in H as [Hc _]. apply negb_true_iff in Hc.
  change (startswith (String c p) "/tmp")
    with (if Ascii.eqb "/"%char c then startswith p "tmp" else false).
  assert (E : Ascii.eqb "/"%char c = false).
  { rewrite Ascii.eqb_sym.
    destruct h; simpl in Hc; [exact Hc|].
    unfold NtPath.is_seps in Hc.
    destruct (Ascii.eqb c "/"%char); [|reflexivity].
    rewrite orb_true_r in Hc. discriminate. }
  now rewrite E.
Qed.

(** [os.makedirs('')] raises [FileNotFoundError] and creates nothing. *)
Lemma makedirs_empty (m : machine) (t : gset loc) :
  makedirs m "" t = Raise FileNotFoundError t.
Proof. destruct m as [[] cwd den]; reflexivity. Qed.

End BareNames.

(** * The statements of the specification *)

Section Claims.
Import PyStr Os Examples.

(** C1. Amended: when the first [os.makedirs] raises and [log_path] does
    not start with the characters [/tmp], the script sets [log_path] to
    [os.path.join('/tmp', 'pesapal_logs', 'pesapal.log')], calls
    [os.makedirs] once more and, when that call returns, ends with this
    path and its directory in place.  The path is
    [/tmp/pesapal_logs/pesapal.log] on a POSIX host and
    [/tmp\pesapal_logs\pesapal.log] on a Windows host. *)
Theorem C1_fallback_to_joined_tmp_path
    (m : machine) (environ : gmap string string) (t t1 t2 : gset loc) (e : OSError) :
  let h := osname m in
  let lp := log_path_init m environ in
  makedirs m (OsPath.dirname h lp) t = Raise e t1 ->
  startswith lp "/tmp" = false ->
  makedirs m (OsPath.dirname h (log_path_tmp h)) t1 = Return t2 ->
  log_path m environ t =
    Run (inl (log_path_tmp h)) t2
      [Makedirs (OsPath.dirname h lp) (Some e);
       Makedirs (OsPath.dirname h (log_path_tmp h)) None]
  /\ isdir m t2 (OsPath.dirname h (log_path_tmp h)) = true
  /\ log_path_tmp h =
       match h with
       | posix => "/tmp/pesapal_logs/pesapal.log"
       | nt => "/tmp\pesapal_logs\pesapal.log"
       end
  /\ OsPath.dirname h (log_path_tmp h) =
       match h with
       | posix => "/tmp/pesapal_logs"
       | nt => "/tmp\pesapal_logs"
       end.
Proof.
  intros h lp H1 H2 H3. repeat split.
  - now apply log_path_second with (e := e) (t1 := t1).
  - now apply makedirs_Return_isdir in H3.
  - destruct h; reflexivity.
  - destruct h; reflexivity.
Qed.

(** C1, instance: [PESAPAL_LOG_PATH=/root/forbidden/pesapal.log] on the
    POSIX host. *)
Lemma C1_witness_root_forbidden :
  log_path linux (pinned "/root/forbidden/pesapal.log") linux_tree =
    Run (inl "/tmp/pesapal_logs/pesapal.log")
      ({[ ("/", ["tmp"; "pesapal_logs"]) ]} ∪ linux_tree)
      [Makedirs "/root/forbidden" (Some PermissionError);
       Makedirs "/tmp/pesapal_logs" None]
  /\ isdir linux ({[ ("/", ["tmp"; "pesapal_logs"]) ]} ∪ linux_tree)
       "/tmp/pesapal_logs" = true.
Proof.
  pose proof (C1_fallback_to_joined_tmp_path linux
                (pinned "/root/forbidden/pesapal.log") linux_tree linux_tree
                ({[ ("/", ["tmp"; "pesapal_logs"]) ]} ∪ linux_tree) PermissionError)
    as H.
  destruct H as (H1 & H2 & _); [vm_compute; reflexivity ..|].
  split; [exact H1 | exact H2].
Defined.

(** C1 as stated fails on a Windows host: with
    [PESAPAL_LOG_PATH=Z:\forbidden\pesapal.log], the creation of
    [Z:\forbidden] refused and the second creation successful, the script
    ends with [/tmp\pesapal_logs\pesapal.log], not with
    [/tmp/pesapal_logs/pesapal.log]. *)
Lemma C1_counterexample_windows :
  let environ := pinned "Z:\forbidden\pesapal.log" in
  let lp := log_path_init windows environ in
  makedirs windows (OsPath.dirname nt lp) ∅ = Raise PermissionError ∅
  /\ startswith lp "/tmp" = false
  /\ calls (log_path windows environ ∅) =
       [Makedirs "Z:\forbidden" (Some PermissionError);
        Makedirs "/tmp\pesapal_logs" None]
  /\ value (log_path windows environ ∅) = inl "/tmp\pesapal_logs\pesapal.log"
  /\ value (log_path windows environ ∅) <> inl "/tmp/pesapal_logs/pesapal.log".
Proof.
  repeat split; try (vm_compute; reflexivity).
  vm_compute. discriminate.
Qed.

(** C2. Amended: when the first [os.makedirs] raises, the exception leaves
    the script if [log_path] begins with the characters [/tmp] (no second
    call is made), and so does the exception of the second call if that one
    raises too: at most two calls are made and no third path is tried.  The
    test is on the characters of [log_path], not on where the path lies. *)
Theorem C2_error_propagates
    (m : machine) (environ : gmap string string) (t t1 : gset loc) (e : OSError) :
  let h := osname m in
  let lp := log_path_init m environ in
  makedirs m (OsPath.dirname h lp) t = Raise e t1 ->
  (startswith lp "/tmp" = true ->
     log_path m environ t =
       Run (inr e) t1 [Makedirs (OsPath.dirname h lp) (Some e)])
  /\ (startswith lp "/tmp" = false ->
      forall e' t2,
        makedirs m (OsPath.dirname h (log_path_tmp h)) t1 = Raise e' t2 ->
        log_path m environ t =
          Run (inr e') t2
            [Makedirs (OsPath.dirname h lp) (Some e);
             Makedirs (OsPath.dirname h (log_path_tmp h)) (Some e')])
  /\ length (calls (log_path m environ t)) <= 2.
Proof.
  intros h lp H1. repeat split.
  - intros H2. now apply log_path_reraise.
  - intros H2 e' t2 H3. now apply log_path_second_raises with (t1 := t1).
  - unfold log_path. fold h lp. rewrite H1.
    destruct (negb (startswith lp "/tmp")); [|simpl; lia].
    destruct (makedirs m _ t1); simpl; lia.
Qed.

(** C2, instances: [PESAPAL_LOG_PATH=/tmp/forbidden/pesapal.log] where
    [/tmp/forbidden] cannot be created, and
    [PESAPAL_LOG_PATH=/root/forbidden/pesapal.log] where
    [/tmp/pesapal_logs] cannot be created either. *)
Lemma C2_witness_tmp_forbidden :
  log_path linux (pinned "/tmp/forbidden/pesapal.log") linux_tree =
    Run (inr PermissionError) linux_tree
      [Makedirs "/tmp/forbidden" (Some PermissionError)]
  /\ log_path linux_readonly (pinned "/root/forbidden/pesapal.log") linux_tree =
    Run (inr PermissionError) linux_tree
      [Makedirs "/root/forbidden" (Some PermissionError);
       Makedirs "/tmp/pesapal_logs" (Some PermissionError)].
Proof.
  split.
  - apply (C2_error_propagates linux (pinned "/tmp/forbidden/pesapal.log")
             linux_tree linux_tree PermissionError);
      vm_compute; reflexivity.
  - apply (C2_error_propagates linux_readonly (pinned "/root/forbidden/pesapal.log")
             linux_tree linux_tree PermissionError);
      vm_compute; reflexivity.
Defined.

(** C2 as stated fails for a path that lies under [/tmp] without beginning
    with the characters [/tmp]: with
    [PESAPAL_LOG_PATH=//tmp/forbidden/pesapal.log] the directory
    [//tmp/forbidden] is [/tmp/forbidden], inside [/tmp]; its creation is
    refused, and the script does not let the exception escape but makes the
    second call and ends with [/tmp/pesapal_logs/pesapal.log]. *)
Lemma C2_counterexample_double_slash :
  let environ := pinned "//tmp/forbidden/pesapal.log" in
  let r := log_path linux environ linux_tree in
  OsPath.dirname posix (log_path_init linux environ) = "//tmp/forbidden"
  /\ locate linux linux_tree "//tmp/forbidden" = Some ("/", ["tmp"; "forbidden"])
  /\ locate linux linux_tree "/tmp" = Some ("/", ["tmp"])
  /\ makedirs linux "//tmp/forbidden" linux_tree = Raise PermissionError linux_tree
  /\ startswith (log_path_init linux environ) "/tmp" = false
  /\ calls r =
       [Makedirs "//tmp/forbidden" (Some PermissionError);
        Makedirs "/tmp/pesapal_logs" None]
  /\ value r = inl "/tmp/pesapal_logs/pesapal.log".
Proof. repeat split; vm_compute; reflexivity. Qed.

(** C3. When [PESAPAL_LOG_PATH] is set to [P] and [os.makedirs] creates
    the directory of [P], the script ends with exactly [P], after that one
    call, and the directory of [P] exists. *)
Theorem C3_override_returned
    (m : machine) (environ : gmap string string) (t t1 : gset loc) (P : string) :
  environ !! "PESAPAL_LOG_PATH" = Some P ->
  makedirs m (OsPath.dirname (osname m) P) t = Return t1 ->
  log_path m environ t =
    Run (inl P) t1 [Makedirs (OsPath.dirname (osname m) P) None]
  /\ isdir m t1 (OsPath.dirname (osname m) P) = true.
Proof.
  intros HP HM.
  assert (E : log_path_init m environ = P) by now apply getenv_set.
  split.
  - rewrite <- E in HM |- *. now apply log_path_first.
  - now apply makedirs_Return_isdir in HM.
Qed.

(** C3, instance: [PESAPAL_LOG_PATH=/srv/app/logs/pesapal.log]. *)
Lemma C3_witness_srv_logs :
  log_path linux (pinned "/srv/app/logs/pesapal.log") linux_tree =
    Run (inl "/srv/app/logs/pesapal.log")
      ({[ ("/", ["srv"; "app"; "logs"]) ]} ∪ linux_tree)
      [Makedirs "/srv/app/logs" None]
  /\ isdir linux ({[ ("/", ["srv"; "app"; "logs"]) ]} ∪ linux_tree)
       "/srv/app/logs" = true.
Proof.
  apply (C3_override_returned linux (pinned "/srv/app/logs/pesapal.log")
           linux_tree ({[ ("/", ["srv"; "app"; "logs"]) ]} ∪ linux_tree)
           "/srv/app/logs/pesapal.log");
    vm_compute; reflexivity.
Defined.

(** C4. On a POSIX host without [PESAPAL_LOG_PATH], [log_path] is
    [/tmp/pesapal_logs/pesapal.log]: the script ends with it as soon as
    [/tmp/pesapal_logs] can be created, never ends with another path, and
    the directory [/tmp/pesapal_logs] exists whenever it ends normally. *)
Theorem C4_posix_default
    (m : machine) (environ : gmap string string) (t : gset loc) :
  osname m = posix ->
  environ !! "PESAPAL_LOG_PATH" = None ->
  log_path_init m environ = "/tmp/pesapal_logs/pesapal.log"
  /\ (forall t1,
        makedirs m "/tmp/pesapal_logs" t = Return t1 ->
        log_path m environ t =
          Run (inl "/tmp/pesapal_logs/pesapal.log") t1
            [Makedirs "/tmp/pesapal_logs" None]
        /\ isdir m t1 "/tmp/pesapal_logs" = true)
  /\ (forall p,
        value (log_path m environ t) = inl p ->
        p = "/tmp/pesapal_logs/pesapal.log"
        /\ isdir m (tree (log_path m environ t)) "/tmp/pesapal_logs" = true).
Proof.
  intros Hh He.
  assert (E : log_path_init m environ = "/tmp/pesapal_logs/pesapal.log").
  { unfold log_path_init, default_log_dir. rewrite Hh.
    now rewrite getenv_unset. }
  split; [exact E|]. split.
  - intros t1 HM. split; [|now apply makedirs_Return_isdir in HM].
    unfold log_path. rewrite E, Hh. simpl OsPath.dirname.
    change (PosixPath.dirname "/tmp/pesapal_logs/pesapal.log")
      with "/tmp/pesapal_logs".
    now rewrite HM.
  - intros p. unfold log_path. rewrite E, Hh.
    change (OsPath.dirname posix "/tmp/pesapal_logs/pesapal.log")
      with "/tmp/pesapal_logs".
    destruct (makedirs m "/tmp/pesapal_logs" t) as [t1|e t1] eqn:HM.
    + simpl. intros [= <-]. split; [reflexivity|].
      now apply makedirs_Return_isdir in HM.
    + simpl. discriminate.
Qed.

(** C4, instance: the POSIX host with an empty environment. *)
Lemma C4_witness_empty_environment :
  log_path linux ∅ linux_tree =
    Run (inl "/tmp/pesapal_logs/pesapal.log")
      ({[ ("/", ["tmp"; "pesapal_logs"]) ]} ∪ linux_tree)
      [Makedirs "/tmp/pesapal_logs" None]
  /\ isdir linux ({[ ("/", ["tmp"; "pesapal_logs"]) ]} ∪ linux_tree)
       "/tmp/pesapal_logs" = true.
Proof.
  destruct (C4_posix_default linux ∅ linux_tree) as (_ & H & _);
    [reflexivity | reflexivity |].
  apply H. vm_compute. reflexivity.
Defined.



(** C6. Amended: in every run at most one [os.makedirs] call returns
    (exactly one when the script ends normally, none when an exception
    escapes) and no directory is ever removed.  A failing call leaves the
    tree as it was when it has no missing ancestor to create first; then a
    run that ends in an exception leaves the file system unchanged. *)
Theorem C6_at_most_one_creation_succeeds
    (m : machine) (environ : gmap string string) (t : gset loc) :
  let r := log_path m environ t in
  length (List.filter succeeded (calls r)) <= 1
  /\ (forall p, value r = inl p -> length (List.filter succeeded (calls r)) = 1)
  /\ (forall e, value r = inr e -> List.filter succeeded (calls r) = [])
  /\ grows m t (tree r)
  /\ (forall e,
        value r = inr e ->
        (forall d e', In (Makedirs d (Some e')) (calls r) -> recurses m d t = false) ->
        tree r = t).
Proof.
  unfold log_path.
  set (h := osname m). set (lp := log_path_init m environ).
  pose proof (makedirs_grows m (OsPath.dirname h lp) t) as G1.
  destruct (makedirs m (OsPath.dirname h lp) t) as [t1|e1 t1] eqn:M1.
  - simpl. repeat split; auto; try apply G1; discriminate.
  - destruct (startswith lp "/tmp"); simpl.
    + repeat split; auto; try apply G1; try discriminate.
      intros e _ Hflat.
      apply (makedirs_Raise_flat m _ _ _ _ (Hflat _ _ (or_introl eq_refl)) M1).
    + pose proof (makedirs_grows m (OsPath.dirname h (log_path_tmp h)) t1) as G2.
      destruct (makedirs m (OsPath.dirname h (log_path_tmp h)) t1)
        as [t2|e2 t2] eqn:M2; simpl.
      * repeat split; auto; try discriminate;
          apply (grows_trans m _ t1); assumption.
      * repeat split; auto; try discriminate;
          try (apply (grows_trans m _ t1); assumption).
        intros e _ Hflat.
        assert (t1 = t)
          by apply (makedirs_Raise_flat m _ _ _ _ (Hflat _ _ (or_introl eq_refl)) M1).
        subst t1.
        apply (makedirs_Raise_flat m _ _ _ _
                 (Hflat _ _ (or_intror (or_introl eq_refl))) M2).
Qed.

(** C6, instance: [PESAPAL_LOG_PATH=/tmp/forbidden/pesapal.log]; the parent
    [/tmp] of the refused directory exists and the tree is unchanged. *)
Lemma C6_witness_tmp_forbidden :
  value (log_path linux (pinned "/tmp/forbidden/pesapal.log") linux_tree)
    = inr PermissionError
  /\ tree (log_path linux (pinned "/tmp/forbidden/pesapal.log") linux_tree)
    = linux_tree.
Proof.
  split; [vm_compute; reflexivity|].
  destruct (C6_at_most_one_creation_succeeds linux
              (pinned "/tmp/forbidden/pesapal.log") linux_tree)
    as (_ & _ & _ & _ & H).
  apply (H PermissionError); [vm_compute; reflexivity|].
  intros d e' [[= <- <-]|[]]. vm_compute. reflexivity.
Defined.

(** C6 as stated fails: with [PESAPAL_LOG_PATH=/tmp/a/b/pesapal.log],
    [/tmp] present, [/tmp/a] absent and [/tmp/a/b] refused, the only
    [os.makedirs] call creates [/tmp/a] and then raises; the path starts
    with [/tmp], so the exception escapes, and [/tmp/a] stays behind. *)
Lemma C6_counterexample_partial_creation :
  let r := log_path linux (pinned "/tmp/a/b/pesapal.log") linux_tree in
  value r = inr PermissionError
  /\ calls r = [Makedirs "/tmp/a/b" (Some PermissionError)]
  /\ isdir linux linux_tree "/tmp/a" = false
  /\ isdir linux (tree r) "/tmp/a" = true
  /\ tree r = {[ ("/", ["tmp"; "a"]) ]} ∪ linux_tree
  /\ tree r <> linux_tree.
Proof.
  repeat split; try (vm_compute; reflexivity).
  intros H.
  assert (D : isdir linux
                (tree (log_path linux (pinned "/tmp/a/b/pesapal.log") linux_tree))
                "/tmp/a" = true) by (vm_compute; reflexivity).
  rewrite H in D. vm_compute in D. discriminate.
Qed.



(** C8. The guard of the fallback is a test on the characters of
    [log_path]: whenever [log_path] begins with [/tmp], whatever follows,
    an exception of [os.makedirs] escapes at once, after that single call.
    [/tmpdata/pesapal.log] is such a path although [/tmpdata] is not
    inside [/tmp]. *)
Theorem C8_prefix_test_stops_fallback
    (m : machine) (environ : gmap string string) (t t1 : gset loc)
    (rest : string) (e : OSError) :
  log_path_init m environ = "/tmp" +:+ rest ->
  makedirs m (OsPath.dirname (osname m) (log_path_init m environ)) t = Raise e t1 ->
  startswith (log_path_init m environ) "/tmp" = true
  /\ log_path m environ t =
       Run (inr e) t1
         [Makedirs (OsPath.dirname (osname m) (log_path_init m environ)) (Some e)].
Proof.
  intros E HM.
  assert (S : startswith (log_path_init m environ) "/tmp" = true)
    by (rewrite E; reflexivity).
  split; [exact S|]. now apply log_path_reraise.
Qed.

(** C8, instance: [PESAPAL_LOG_PATH=/tmpdata/pesapal.log] where [/tmpdata]
    cannot be created; [/tmpdata] lies directly under the root. *)
Lemma C8_witness_tmpdata :
  log_path linux (pinned "/tmpdata/pesapal.log") linux_tree =
    Run (inr PermissionError) linux_tree [Makedirs "/tmpdata" (Some PermissionError)]
  /\ locate linux linux_tree "/tmpdata" = Some ("/", ["tmpdata"])
  /\ locate linux linux_tree "/tmp" = Some ("/", ["tmp"]).
Proof.
  split; [|split; vm_compute; reflexivity].
  apply (C8_prefix_test_stops_fallback linux (pinned "/tmpdata/pesapal.log")
           linux_tree linux_tree "data/pesapal.log" PermissionError);
    vm_compute; reflexivity.
Defined.




(** C10. Amended: when [PESAPAL_LOG_PATH] is a bare file name, its
    directory is the empty string, [os.makedirs('')] raises
    [FileNotFoundError], and since the name does not start with [/tmp] the
    script calls [os.makedirs] on the directory of
    [os.path.join('/tmp', 'pesapal_logs', 'pesapal.log')].  When that call
    returns, the script ends with the joined path instead of the override
    ([/tmp/pesapal_logs/pesapal.log] on a POSIX host,
    [/tmp\pesapal_logs\pesapal.log] on a Windows host); when it raises,
    its exception escapes. *)
Theorem C10_bare_file_name_falls_back
    (m : machine) (environ : gmap string string) (t : gset loc) (P : string) :
  let h := osname m in
  environ !! "PESAPAL_LOG_PATH" = Some P ->
  bare_name h P = true ->
  OsPath.dirname h P = ""
  /\ makedirs m "" t = Raise FileNotFoundError t
  /\ startswith P "/tmp" = false
  /\ (forall t2,
        makedirs m (OsPath.dirname h (log_path_tmp h)) t = Return t2 ->
        log_path m environ t =
          Run (inl (log_path_tmp h)) t2
            [Makedirs "" (Some FileNotFoundError);
             Makedirs (OsPath.dirname h (log_path_tmp h)) None])
  /\ (forall e t2,
        makedirs m (OsPath.dirname h (log_path_tmp h)) t = Raise e t2 ->
        log_path m environ t =
          Run (inr e) t2
            [Makedirs "" (Some FileNotFoundError);
             Makedirs (OsPath.dirname h (log_path_tmp h)) (Some e)])
  /\ log_path_tmp h =
       match h with
       | posix => "/tmp/pesapal_logs/pesapal.log"
       | nt => "/tmp\pesapal_logs\pesapal.log"
       end.
Proof.
  intros h HP HB.
  assert (E : log_path_init m environ = P) by now apply getenv_set.
  pose proof (dirname_bare h P HB) as D.
  pose proof (startswith_bare h P HB) as S.
  pose proof (makedirs_empty m t) as M.
  repeat split; auto.
  - intros t2 M2. rewrite <- D, <- E.
    apply log_path_second with (t1 := t); fold h; rewrite ?E, ?D; auto.
  - intros e t2 M2. rewrite <- D, <- E.
    apply log_path_second_raises with (t1 := t); fold h; rewrite ?E, ?D; auto.
  - destruct h; reflexivity.
Qed.

(** C10, instance: [PESAPAL_LOG_PATH=pesapal.log] on the POSIX host. *)
Lemma C10_witness_bare_name :
  log_path linux (pinned "pesapal.log") linux_tree =
    Run (inl "/tmp/pesapal_logs/pesapal.log")
      ({[ ("/", ["tmp"; "pesapal_logs"]) ]} ∪ linux_tree)
      [Makedirs "" (Some FileNotFoundError); Makedirs "/tmp/pesapal_logs" None].
Proof.
  destruct (C10_bare_file_name_falls_back linux (pinned "pesapal.log")
              linux_tree "pesapal.log") as (_ & _ & _ & H & _);
    [vm_compute; reflexivity ..|].
  apply H. vm_compute. reflexivity.
Defined.

(** C10 as stated fails where [/tmp/pesapal_logs] cannot be created: with
    [PESAPAL_LOG_PATH=pesapal.log] both [os.makedirs] calls raise and the
    script ends with [PermissionError], not with a path. *)
Lemma C10_counterexample_tmp_refused :
  let r := log_path linux_readonly (pinned "pesapal.log") linux_tree in
  bare_name posix "pesapal.log" = true
  /\ calls r =
       [Makedirs "" (Some FileNotFoundError);
        Makedirs "/tmp/pesapal_logs" (Some PermissionError)]
  /\ value r = inr PermissionError
  /\ value r <> inl "/tmp/pesapal_logs/pesapal.log".
Proof.
  repeat split; try (vm_compute; reflexivity).
  vm_compute. discriminate.
Qed.

End Claims.

(** * Further properties of the script and of the functions it calls *)

(** ** [os.makedirs]: a failed call fails again and creates nothing more *)

Section MakedirsAgain.
Import PyStr Os.
Variable m : machine.





End MakedirsAgain.

(** ** The script: what every run guarantees *)

Section ScriptFacts.
Import PyStr Os Examples.








(** X5. The script reads two environment variables and no other:
    two environments with the same [PESAPAL_LOG_PATH] (set or not) and, on
    a Windows host, the same [TEMP], give the same run.  On a POSIX host
    [TEMP] is not read. *)
Theorem log_path_reads_two_variables
    (m : machine) (environ1 environ2 : gmap string string) (t : gset loc) :
  environ1 !! "PESAPAL_LOG_PATH" = environ2 !! "PESAPAL_LOG_PATH" ->
  (osname m = nt -> environ1 !! "TEMP" = environ2 !! "TEMP") ->
  log_path m environ1 t = log_path m environ2 t.
Proof.
  intros HP HT.
  assert (E : log_path_init m environ1 = log_path_init m environ2).
  { unfold log_path_init, default_log_dir, getenv. rewrite HP.
    destruct (osname m); simpl; [reflexivity|].
    now rewrite (HT eq_refl). }
  unfold log_path. now rewrite E.
Qed.

(** X5, instance: on the POSIX host [TEMP] and [HOME] change nothing. *)
Lemma log_path_reads_two_variables_witness :
  log_path linux (<[ "TEMP" := "/var/tmp" ]> (<[ "HOME" := "/root" ]> ∅)) linux_tree
  = log_path linux ∅ linux_tree.
Proof.
  apply (log_path_reads_two_variables linux); [reflexivity|discriminate].
Defined.

(** X6. On a POSIX host without [PESAPAL_LOG_PATH] the script calls
    [os.makedirs] exactly once, on [/tmp/pesapal_logs]: the default path
    starts with [/tmp], so an exception of that call escapes and no second
    path is tried. *)
Theorem posix_default_single_call
    (m : machine) (environ : gmap string string) (t : gset loc) :
  osname m = posix ->
  environ !! "PESAPAL_LOG_PATH" = None ->
  (exists raised, calls (log_path m environ t) = [Makedirs "/tmp/pesapal_logs" raised])
  /\ forall e t1,
      makedirs m "/tmp/pesapal_logs" t = Raise e t1 ->
      log_path m environ t =
        Run (inr e) t1 [Makedirs "/tmp/pesapal_logs" (Some e)].
Proof.
  intros Hh He.
  assert (E : log_path_init m environ = "/tmp/pesapal_logs/pesapal.log").
  { unfold log_path_init, default_log_dir. rewrite Hh. now rewrite getenv_unset. }
  unfold log_path. rewrite E, Hh.
  change (OsPath.dirname posix "/tmp/pesapal_logs/pesapal.log")
    with "/tmp/pesapal_logs".
  split.
  - destruct (makedirs m "/tmp/pesapal_logs" t); simpl; eexists; reflexivity.
  - intros e t1 ->. reflexivity.
Qed.

(** X6, instance: [/tmp/pesapal_logs] refused on the POSIX host. *)
Lemma posix_default_single_call_witness :
  log_path linux_readonly ∅ linux_tree =
    Run (inr PermissionError) linux_tree
      [Makedirs "/tmp/pesapal_logs" (Some PermissionError)].
Proof.
  destruct (posix_default_single_call linux_readonly ∅ linux_tree) as [_ H];
    [reflexivity | reflexivity |].
  apply H. vm_compute. reflexivity.
Defined.

End ScriptFacts.

(** ** [os.path.join] and [os.path.split] on bare names *)

Section JoinFacts.
Import PyStr.

Lemma str_app_assoc (a b c : string) : (a +:+ b) +:+ c = a +:+ (b +:+ c).
Proof.
  induction a as [|x a IH]; [reflexivity|].
  rewrite !app_cons. now rewrite IH.
Qed.

Lemma is_empty_app (a b : string) :
  is_empty (a +:+ b) = is_empty a && is_empty b.
Proof. destruct a; reflexivity. Qed.

Lemma last_char_app (a b : string) :
  is_empty b = false -> last_char (a +:+ b) = last_char b.
Proof.
  intros Hb. induction a as [|x a IH]; [reflexivity|].
  rewrite app_cons. simpl. rewrite IH.
  destruct (a +:+ b) eqn:E; [|reflexivity].
  assert (H : is_empty (a +:+ b) = true) by now rewrite E.
  rewrite is_empty_app, Hb, andb_false_r in H. discriminate.
Qed.

Lemma ends_in_app (isc : ascii -> bool) (a b : string) :
  is_empty b = false -> ends_in isc (a +:+ b) = ends_in isc b.
Proof. intros Hb. unfold ends_in. now rewrite last_char_app. Qed.

Lemma ends_in_none (isc : ascii -> bool) (s : string) :
  all_chars (fun c => negb (isc c)) s = true -> ends_in isc s = false.
Proof.
  unfold ends_in. induction s as [|c s IH]; [reflexivity|].
  simpl. intros H. apply andb_true_iff in H as [Hc Hs].
  destruct s as [|c' s']; [now apply negb_true_iff in Hc|].
  now apply IH.
Qed.

Lemma bare_nt_seps (s : string) :
  bare_name nt s = true -> all_chars (fun c => negb (NtPath.is_seps c)) s = true.
Proof.
  unfold bare_name. apply all_chars_weaken.
  intros c. simpl. destruct (NtPath.is_seps c); simpl; congruence.
Qed.

Lemma nt_starts_with_sep_bare (s : string) :
  bare_name nt s = true -> NtPath.starts_with_sep s = false.
Proof.
  intros H. apply bare_nt_seps in H.
  destruct s as [|c s]; [reflexivity|].
  simpl in *. apply andb_true_iff in H as [Hc _]. now apply negb_true_iff in Hc.
Qed.

(** One step of [ntpath.join] with a bare name appends it, after a
    separator when one is needed. *)
Lemma nt_join_step_bare (dr rp a : string) :
  bare_name nt a = true ->
  NtPath.join_step (dr, rp) a =
    (dr, (if negb (is_empty rp) && negb (ends_in NtPath.is_seps rp)
          then rp +:+ NtPath.sep else rp) +:+ a).
Proof.
  intros H. unfold NtPath.join_step.
  rewrite (splitdrive_bare _ H), (nt_starts_with_sep_bare _ H). reflexivity.
Qed.

Lemma nt_join_two_bare (d a b : string) :
  bare_name nt a = true -> bare_name nt b = true -> is_empty a = false ->
  exists pre, NtPath.join d [a; b] = pre +:+ a +:+ "\" +:+ b.
Proof.
  intros Ha Hb Ne. unfold NtPath.join. simpl fold_left.
  destruct (NtPath.splitdrive d) as [dr rp].
  rewrite (nt_join_step_bare _ _ _ Ha).
  set (x := if negb (is_empty rp) && negb (ends_in NtPath.is_seps rp)
            then rp +:+ NtPath.sep else rp).
  rewrite (nt_join_step_bare _ _ _ Hb).
  assert (K : negb (is_empty (x +:+ a))
              && negb (ends_in NtPath.is_seps (x +:+ a)) = true).
  { rewrite is_empty_app, Ne, andb_false_r.
    now rewrite (ends_in_app _ _ _ Ne), (ends_in_none _ _ (bare_nt_seps _ Ha)). }
  rewrite K.
  match goal with
  | |- context [if ?c then _ else _] => destruct c
  end.
  - exists (dr +:+ NtPath.sep +:+ x). now rewrite !str_app_assoc.
  - exists (dr +:+ x). now rewrite !str_app_assoc.
Qed.

Lemma posix_startswith_sep_bare (s : string) :
  bare_name posix s = true -> startswith s "/" = false.
Proof.
  destruct s as [|c s]; [reflexivity|].
  unfold bare_name. intros H. simpl in H.
  apply andb_true_iff in H as [Hc _]. apply negb_true_iff in Hc.
  unfold PosixPath.is_sep in Hc.
  change (startswith (String c s) "/")
    with (if Ascii.eqb "/"%char c then startswith s "" else false).
  rewrite Ascii.eqb_sym. now rewrite Hc.
Qed.

Lemma posix_join_two_bare (d a b : string) :
  bare_name posix a = true -> bare_name posix b = true -> is_empty a = false ->
  exists pre, PosixPath.join d [a; b] = pre +:+ a +:+ "/" +:+ b.
Proof.
  intros Ha Hb Ne. cbn [PosixPath.join].
  pose proof (posix_startswith_sep_bare _ Ha) as Sa.
  pose proof (posix_startswith_sep_bare _ Hb) as Sb.
  unfold PosixPath.sep. rewrite Sa, Sb.
  assert (K : forall x, is_empty (x +:+ a) || ends_in PosixPath.is_sep (x +:+ a) = false).
  { intros x. rewrite is_empty_app, Ne, andb_false_r.
    rewrite (ends_in_app _ _ _ Ne). simpl. now apply ends_in_none. }
  destruct (is_empty d || ends_in PosixPath.is_sep d).
  - rewrite K. exists d. now rewrite !str_app_assoc.
  - rewrite <- (str_app_assoc d "/" a), K.
    exists (d +:+ "/"). now rewrite !str_app_assoc.
Qed.

End JoinFacts.

(** ** [posixpath.split] undoes [posixpath.join] *)

Section SplitJoin.
Import PyStr.

Lemma all_chars_app (f : ascii -> bool) (a b : string) :
  all_chars f (a +:+ b) = all_chars f a && all_chars f b.
Proof.
  induction a as [|x a IH]; [reflexivity|].
  rewrite app_cons. simpl. rewrite IH. now rewrite andb_assoc.
Qed.

Lemma rsplit_app_bare (isc : ascii -> bool) (p c : string) :
  all_chars (fun x => negb (isc x)) c = true ->
  rsplit isc (p +:+ c) = (fst (rsplit isc p), snd (rsplit isc p) +:+ c).
Proof.
  intros Hc. induction p as [|x p IH].
  - rewrite app_empty_l. now rewrite rsplit_none.
  - rewrite app_cons. simpl. rewrite IH.
    destruct (rsplit isc p) as [h t]. simpl.
    destruct (is_empty h); [destruct (isc x)|]; reflexivity.
Qed.

Lemma rsplit_sep_end (isc : ascii -> bool) (p : string) (s : ascii) :
  isc s = true -> rsplit isc (p +:+ String s "") = (p +:+ String s "", "").
Proof.
  intros Hs. induction p as [|x p IH].
  - rewrite app_empty_l. simpl. now rewrite Hs.
  - rewrite app_cons. simpl. rewrite IH.
    now rewrite is_empty_app, andb_false_r.
Qed.

Lemma rstrip_sep_end (isc : ascii -> bool) (p : string) (s : ascii) :
  isc s = true -> rstrip isc (p +:+ String s "") = rstrip isc p.
Proof.
  intros Hs. induction p as [|x p IH].
  - rewrite app_empty_l. simpl. now rewrite Hs.
  - rewrite app_cons. simpl. now rewrite IH.
Qed.

Lemma rstrip_id (isc : ascii -> bool) (p : string) :
  ends_in isc p = false -> rstrip isc p = p.
Proof.
  unfold ends_in. induction p as [|x p IH]; [reflexivity|].
  simpl. destruct p as [|y p'].
  - simpl. now intros ->.
  - intros H. rewrite (IH H). reflexivity.
Qed.

(** A non-empty string is its last character after the rest. *)
Lemma last_char_split (p : string) :
  is_empty p = false ->
  exists q c, p = q +:+ String c "" /\ last_char p = Some c.
Proof.
  induction p as [|x p IH]; [discriminate|]. intros _.
  destruct p as [|y p'].
  - exists "", x. split; reflexivity.
  - destruct (IH eq_refl) as (q & c & E & L).
    exists (String x q), c. rewrite app_cons, <- E. split; [reflexivity|].
    exact L.
Qed.

Lemma all_chars_last (isc : ascii -> bool) (p : string) :
  is_empty p = false -> ends_in isc p = false -> all_chars isc p = false.
Proof.
  intros Ne He. destruct (last_char_split p Ne) as (q & c & -> & L).
  unfold ends_in in He. rewrite L in He.
  rewrite all_chars_app. simpl. rewrite He. now rewrite andb_false_r.
Qed.

Lemma posix_split_join_bare (p c : string) :
  bare_name posix c = true ->
  PosixPath.split (PosixPath.join p [c]) = (posix_head_of p, c).
Proof.
  intros Hc. cbn [PosixPath.join].
  unfold PosixPath.split, posix_head_of, PosixPath.sep.
  rewrite (posix_startswith_sep_bare _ Hc).
  destruct (is_empty p) eqn:Ne.
  - apply is_empty_true in Ne; subst p. simpl orb. cbv iota.
    rewrite app_empty_l, (rsplit_none PosixPath.is_sep c Hc). reflexivity.
  - simpl orb. destruct (ends_in PosixPath.is_sep p) eqn:He.
    + destruct (last_char_split p Ne) as (q & s & E & L).
      unfold ends_in in He. rewrite L in He.
      assert (RS : rsplit PosixPath.is_sep p = (p, ""))
        by (rewrite E; now apply rsplit_sep_end).
      rewrite (rsplit_app_bare PosixPath.is_sep _ c Hc), RS.
      simpl fst. simpl snd.
      rewrite app_empty_l, Ne. simpl negb.
      destruct (all_chars PosixPath.is_sep p); reflexivity.
    + rewrite <- str_app_assoc, (rsplit_app_bare PosixPath.is_sep _ c Hc).
      rewrite (rsplit_sep_end PosixPath.is_sep p "/"%char eq_refl).
      simpl fst. simpl snd. rewrite app_empty_l.
      rewrite is_empty_app, andb_false_r, all_chars_app,
        (all_chars_last _ _ Ne He). simpl.
      rewrite (rstrip_sep_end PosixPath.is_sep p "/"%char eq_refl).
      now rewrite (rstrip_id _ _ He).
Qed.

Lemma posix_dirname_split (p : string) :
  PosixPath.dirname p = fst (PosixPath.split p).
Proof.
  unfold PosixPath.dirname, PosixPath.split.
  now destruct (rsplit PosixPath.is_sep p).
Qed.

(** X12. [posixpath.split] undoes [posixpath.join]: for a name [c] without
    [/], splitting [join(p, c)] gives the name back, and the head, which is
    also [dirname(join(p, c))], is [p] without its trailing separators
    (or [p] itself when it is empty or only separators). *)
Theorem posix_split_undoes_join (p c : string) :
  bare_name posix c = true ->
  PosixPath.split (PosixPath.join p [c]) = (posix_head_of p, c)
  /\ PosixPath.dirname (PosixPath.join p [c]) = posix_head_of p.
Proof.
  intros Hc. pose proof (posix_split_join_bare p c Hc) as H.
  split; [exact H|]. now rewrite posix_dirname_split, H.
Qed.

(** X12, instance: a directory given with trailing separators. *)
Lemma posix_split_undoes_join_witness :
  PosixPath.split (PosixPath.join "/var/log//" ["pesapal.log"])
    = ("/var/log", "pesapal.log")
  /\ PosixPath.dirname (PosixPath.join "/var/log//" ["pesapal.log"]) = "/var/log".
Proof.
  apply (posix_split_undoes_join "/var/log//" "pesapal.log"). reflexivity.
Defined.

End SplitJoin.

(** ** The default path and the calls of [os.makedirs] *)

Section MoreFacts.
Import PyStr Os Examples.

(** X7. Without [PESAPAL_LOG_PATH], whatever [TEMP] and the current
    directory are, [log_path] ends with the directory name [pesapal_logs],
    the separator of the host and the file name [pesapal.log]. *)
Theorem default_log_path_file_name
    (m : machine) (environ : gmap string string) :
  environ !! "PESAPAL_LOG_PATH" = None ->
  exists pre,
    log_path_init m environ =
      pre +:+ match osname m with
              | posix => "pesapal_logs/pesapal.log"
              | nt => "pesapal_logs\pesapal.log"
              end.
Proof.
  intros He. unfold log_path_init. rewrite (getenv_unset _ _ _ He).
  destruct (osname m).
  - apply (posix_join_two_bare (default_log_dir m environ)
             "pesapal_logs" "pesapal.log"); reflexivity.
  - apply (nt_join_two_bare (default_log_dir m environ)
             "pesapal_logs" "pesapal.log"); reflexivity.
Qed.

(** X7, instance: a Windows host whose [TEMP] is a share. *)
Lemma default_log_path_file_name_witness :
  exists pre,
    log_path_init windows {[ "TEMP" := "\\srv\share" ]} =
      pre +:+ "pesapal_logs\pesapal.log".
Proof.
  apply (default_log_path_file_name windows {[ "TEMP" := "\\srv\share" ]}).
  reflexivity.
Defined.

(** X8. On a Windows host, [TEMP] set to the empty string is not treated
    as unset: the current directory is not consulted, [log_path] is the
    relative path [pesapal_logs\pesapal.log], and its directory
    [pesapal_logs] denotes a location directly below the current
    directory. *)
Theorem windows_empty_TEMP
    (m : machine) (environ : gmap string string) (t : gset loc) :
  osname m = nt ->
  environ !! "PESAPAL_LOG_PATH" = None ->
  environ !! "TEMP" = Some "" ->
  log_path_init m environ = "pesapal_logs\pesapal.log"
  /\ OsPath.dirname nt (log_path_init m environ) = "pesapal_logs"
  /\ locate m t "pesapal_logs" =
       Some (fst (cwd_loc m), (snd (cwd_loc m) ++ ["pesapal_logs"])%list).
Proof.
  intros Hh He HT.
  assert (E : log_path_init m environ = "pesapal_logs\pesapal.log").
  { unfold log_path_init, default_log_dir. rewrite Hh.
    rewrite (getenv_unset _ _ _ He). simpl negb. cbv iota.
    now rewrite (getenv_set _ _ _ _ HT). }
  rewrite E. repeat split.
  rewrite locate_eq, Hh. reflexivity.
Qed.

(** X8, instance: the Windows host with [TEMP] empty; the current
    directory is [C:\work]. *)
Lemma windows_empty_TEMP_witness :
  log_path_init windows {[ "TEMP" := "" ]} = "pesapal_logs\pesapal.log"
  /\ locate windows ∅ "pesapal_logs" = Some ("C:\", ["work"; "pesapal_logs"]).
Proof.
  destruct (windows_empty_TEMP windows {[ "TEMP" := "" ]} ∅) as (H1 & _ & H2);
    [reflexivity ..|].
  split; [exact H1|]. rewrite H2. vm_compute. reflexivity.
Defined.

(** X9. On a file system of directories only: when
    [os.makedirs(name, exist_ok=True)] returns, [os.path.isdir] is true of
    [name] and of its head; a second call on [name] returns at once and
    changes nothing. *)
Theorem makedirs_exist_ok
    (m : machine) (name : string) (t t' : gset loc) :
  makedirs m name t = Return t' ->
  isdir m t' name = true
  /\ makedirs m name t' = Return t'
  /\ forall head tail,
      split_twice (osname m) name = (head, tail) ->
      is_empty head = false -> is_empty tail = false ->
      isdir m t' head = true.
Proof.
  intros H. pose proof (makedirs_Return_isdir m _ _ _ H) as D.
  repeat split; auto.
  - now apply makedirs_isdir.
  - intros head tail E Eh Et. now apply (isdir_head m t' name head tail).
Qed.

(** X9, instance: [/tmp/x/y] from a tree that has only [/tmp]. *)
Lemma makedirs_exist_ok_witness :
  isdir linux ({[ ("/", ["tmp"; "x"; "y"]); ("/", ["tmp"; "x"]) ]} ∪ linux_tree)
    "/tmp/x" = true.
Proof.
  destruct (makedirs_exist_ok linux "/tmp/x/y" linux_tree
              ({[ ("/", ["tmp"; "x"; "y"]); ("/", ["tmp"; "x"]) ]} ∪ linux_tree))
    as (_ & _ & H); [vm_compute; reflexivity|].
  apply (H "/tmp/x" "y"); reflexivity.
Defined.



(** X11. On a file system of directories only: [os.makedirs] removes
    nothing, creates nothing where the system refuses, and with
    [exist_ok=True] never raises [FileExistsError], since whatever exists
    at a name is a directory. *)
Theorem makedirs_only_adds_permitted
    (m : machine) (name : string) (t : gset loc) :
  t ⊆ tree_of (makedirs m name t)
  /\ (forall l, l ∈ tree_of (makedirs m name t) -> l ∉ t -> l ∉ denied m)
  /\ forall t', makedirs m name t <> Raise FileExistsError t'.
Proof.
  pose proof (makedirs_grows m name t) as [G1 G2].
  repeat split; auto.
  intros t' H.
  pose proof (run_not_FileExistsError m name t _ (makedirs_runs m name t) _ _ H).
  discriminate.
Qed.

(** X13. The recursion of [os.makedirs] ends: the head it recurses on is
    strictly shorter than the name, so a bound above the length of the
    name is never used up and the outcome does not depend on it. *)
Theorem makedirs_recursion_ends
    (m : machine) (name : string) (t : gset loc) (n : nat) :
  String.length name < n ->
  makedirs_fuel n m name t = Some (makedirs m name t)
  /\ forall head tail,
      split_twice (osname m) name = (head, tail) ->
      is_empty tail = false ->
      String.length head < String.length name.
Proof.
  intros H. split; [now apply makedirs_fuel_makedirs|].
  intros head tail E Et. now apply (split_twice_shorter (osname m) name head tail).
Qed.

(** X13, instance: seventeen nested calls are enough for
    [/tmp/pesapal_logs]. *)
Lemma makedirs_recursion_ends_witness :
  makedirs_fuel 18 linux "/tmp/pesapal_logs" linux_tree
  = Some (makedirs linux "/tmp/pesapal_logs" linux_tree).
Proof.
  apply (makedirs_recursion_ends linux "/tmp/pesapal_logs" linux_tree 18).
  simpl. lia.
Defined.

End MoreFacts.
